(** * Thrive engine: the seeded random number source (src/engine/rng.cpp)

    [RNG] owns a seed, a [std::random_device] and a [std::mt19937], and
    samples through [std::uniform_int_distribution<int>] and
    [std::uniform_real_distribution<double>].

    What rng.cpp itself does is embedded method by method in [Module RNG].
    What it borrows from the C++ standard library is modelled as follows.
    - [std::mt19937] is fixed bit for bit by ISO C++ ([rand.eng.mers],
      [rand.predef]); it is embedded concretely in [Module mt19937], with the
      state array updated in place.
    - [std::random_device] is an entropy oracle ([Module random_device]).
    - The two distributions are implementation-defined: the class
      [StdDistributions] takes them as parameters that read the engine only
      through its output stream.  A call whose arguments break the
      precondition the standard puts on the distribution has undefined
      behaviour, which is an explicit [outcome]. *)

From Stdlib Require Import ZArith Lia Floats.
From stdpp Require Import base tactics option list strings.

Local Open Scope Z_scope.

(** ** Outcomes of a C++ call: a value, an exception, or undefined behaviour *)

Inductive outcome (A : Type) : Type :=
  | Returns (a : A)
  | Throws (what : string)
  | Undefined.
Arguments Returns {A} a.
Arguments Throws {A} what.
Arguments Undefined {A}.

Definition obind {A B} (o : outcome A) (k : A -> outcome B) : outcome B :=
  match o with
  | Returns a => k a
  | Throws what => Throws what
  | Undefined => Undefined
  end.

Notation "'let*' x ':=' o 'in' k" := (obind o (fun x => k))
  (at level 10, x pattern, o at level 100, k at level 200).

Definition well_defined {A} (o : outcome A) : Prop := exists a, o = Returns a.

(** ** [std::mt19937]

    [mersenne_twister_engine<uint_fast32_t, 32, 624, 397, 31, 0x9908b0df, 11,
    0xffffffff, 7, 0x9d2c5680, 15, 0xefc60000, 18, 1812433253>]. *)

Module mt19937.

Definition word_size : Z := 32.
Definition state_size : nat := 624.
Definition shift_size : nat := 397.
Definition mask_bits : Z := 31.
Definition xor_mask : Z := 0x9908b0df.
Definition tempering_u : Z := 11.
Definition tempering_d : Z := 0xffffffff.
Definition tempering_s : Z := 7.
Definition tempering_b : Z := 0x9d2c5680.
Definition tempering_t : Z := 15.
Definition tempering_c : Z := 0xefc60000.
Definition tempering_l : Z := 18.
Definition initialization_multiplier : Z := 1812433253.
Definition default_seed : Z := 5489.

Definition modulus : Z := 2 ^ word_size.
Definition min : Z := 0.
Definition max : Z := modulus - 1.

(** The engine: the array of [state_size] words and the read position. *)
Record t : Type := Build { M_x : list Z; M_p : nat }.

(** The array always holds [state_size] words (its C++ type says so). *)
Definition ok (g : t) : Prop := length (M_x g) = state_size.

(** [x[i]]; an index past the array is never read on an [ok] engine. *)
Definition word (x : list Z) (i : nat) : Z := default 0 (x !! i).

Definition upper_mask : Z := Z.shiftl (Z.ones word_size) mask_bits mod modulus.
Definition lower_mask : Z := Z.ones mask_bits.

(** One step of the seeding loop: the value stored at [x[i]]. *)
Definition seed_word (prev : Z) (i : nat) : Z :=
  let x := Z.lxor prev (Z.shiftr prev (word_size - 2)) in
  let x := x * initialization_multiplier in
  let x := x + Z.of_nat i mod Z.of_nat state_size in
  x mod modulus.

(** [for (i = from; i < from + count; ++i) x[i] = seed_word(x[i-1], i)] *)
Fixpoint seed_loop (count from : nat) (x : list Z) : list Z :=
  match count with
  | O => x
  | S count' =>
      seed_loop count' (S from) (<[from := seed_word (word x (from - 1)) from]> x)
  end.

(** [void seed(result_type sd)] *)
Definition seed (g : t) (sd : Z) : t :=
  let x := <[O := sd mod modulus]> (M_x g) in
  let x := seed_loop (state_size - 1) 1 x in
  {| M_x := x; M_p := state_size |}.

(** Storage before the constructor body runs: [state_size] cells of
    indeterminate content ([seed] overwrites every one of them). *)
Definition uninitialized : t := {| M_x := replicate state_size 0; M_p := O |}.

(** [explicit mersenne_twister_engine(result_type sd) { seed(sd); }] *)
Definition new (sd : Z) : t := seed uninitialized sd.

(** The word that replaces [x[k]] in a regeneration, from [x[k]], [x[k1]]
    and [x[km]]. *)
Definition twist (x : list Z) (k k1 km : nat) : Z :=
  let y := Z.lor (Z.land (word x k) upper_mask) (Z.land (word x k1) lower_mask) in
  Z.lxor (Z.lxor (word x km) (Z.shiftr y 1))
         (if Z.odd y then xor_mask else 0).

(** [for (k = from; k < from + count; ++k) x[k] = twist(x, k, k + 1, km k)] *)
Fixpoint gen_loop (km : nat -> nat) (count from : nat) (x : list Z) : list Z :=
  match count with
  | O => x
  | S count' =>
      gen_loop km count' (S from) (<[from := twist x from (S from) (km from)]> x)
  end.

(** [void _M_gen_rand()] *)
Definition gen_rand (g : t) : t :=
  let n := state_size in
  let m := shift_size in
  let x := gen_loop (fun k => (k + m)%nat) (n - m) 0 (M_x g) in
  let x := gen_loop (fun k => (k - (n - m))%nat) (m - 1) (n - m) x in
  let x := <[(n - 1)%nat := twist x (n - 1) 0 (m - 1)]> x in
  {| M_x := x; M_p := O |}.

Definition temper (z : Z) : Z :=
  let z := Z.lxor z (Z.land (Z.shiftr z tempering_u) tempering_d) in
  let z := Z.lxor z (Z.land (Z.shiftl z tempering_s) tempering_b) in
  let z := Z.lxor z (Z.land (Z.shiftl z tempering_t) tempering_c) in
  Z.lxor z (Z.shiftr z tempering_l).

(** [result_type operator()()] *)
Definition call (g : t) : Z * t :=
  let g := if (state_size <=? M_p g)%nat then gen_rand g else g in
  let z := word (M_x g) (M_p g) in
  (temper z, {| M_x := M_x g; M_p := S (M_p g) |}).

(** The engine after [k] calls, and the [i]-th value it is going to return. *)
Fixpoint discard (k : nat) (g : t) : t :=
  match k with
  | O => g
  | S k' => discard k' (snd (call g))
  end.

Definition stream (g : t) (i : nat) : Z := fst (call (discard i g)).

End mt19937.

#[global] Arguments mt19937.seed : simpl never.
#[global] Arguments mt19937.new : simpl never.
#[global] Arguments mt19937.gen_rand : simpl never.
#[global] Arguments mt19937.call : simpl never.
#[global] Arguments mt19937.stream : simpl never.

(** A value of [result_type] that [operator()] may return: [min() <= w <=
    max()]; and an engine whose array holds [state_size] such words. *)
Definition mt19937_word (w : Z) : Prop := mt19937.min <= w <= mt19937.max.

Definition mt19937_words (g : mt19937.t) : Prop :=
  mt19937.ok g /\ Forall mt19937_word (mt19937.M_x g).

(** ** [std::random_device]

    An entropy oracle: the values the environment is going to hand out, and
    how many of them were taken.  [result_type] is [unsigned int]. *)

Module random_device.

Record t : Type := Build { entropy : nat -> Z; drawn : nat }.

(** [result_type operator()()] *)
Definition call (rd : t) : Z * t :=
  (entropy rd (drawn rd) mod 2 ^ 32,
   {| entropy := entropy rd; drawn := S (drawn rd) |}).

End random_device.

(** ** The distributions

    [int] is the 32-bit C++ [int]. *)

Definition is_int (z : Z) : Prop := - 2 ^ 31 <= z < 2 ^ 31.

(** What an implementation of the standard library chooses: the type
    [double] with its comparison [a <= b] and the test
    [b - a <= numeric_limits<double>::max()] (the two halves of the
    precondition of [uniform_real_distribution<double>]), and, for each
    distribution, the value it computes from the words the engine is going to
    return together with the number of words it takes. *)
Class StdDistributions : Type := {
  double : Type;
  double_le : double -> double -> bool;
  double_span_fits : double -> double -> bool;
  uniform_int_draw : Z -> Z -> (nat -> Z) -> Z * nat;
  uniform_real_draw : double -> double -> (nat -> Z) -> double * nat
}.

(** ISO C++ [rand.dist.uni.int]: [uniform_int_distribution(a, b)], with
    [a <= b], produces integers [i] with [a <= i <= b]. *)
Class UniformIntLaw (D : StdDistributions) : Prop := {
  uniform_int_in_range :
    forall (a b : Z) (s : nat -> Z),
      is_int a -> is_int b -> a <= b ->
      a <= fst (uniform_int_draw a b s) <= b
}.

(** ISO C++ [rand.dist.uni.real]: [uniform_real_distribution(a, b)], with
    [a <= b] and [b - a <= numeric_limits<double>::max()], produces numbers
    [x] with [a <= x < b].  Only [a <= x <= b] is taken from it: the bound
    that is left when [a = b] and when the last rounding reaches [b]. *)
Class UniformRealLaw (D : StdDistributions) : Prop := {
  uniform_real_in_range :
    forall (a b : double) (s : nat -> Z),
      double_le a b = true -> double_span_fits a b = true ->
      double_le a (fst (uniform_real_draw a b s)) = true /\
      double_le (fst (uniform_real_draw a b s)) b = true
}.

Module uniform_int_distribution.
Section Distribution.
Context {D : StdDistributions}.

Record t : Type := Build { a : Z; b : Z }.

(** [explicit uniform_int_distribution(int a, int b)]; requires [a <= b]
    (ISO C++ [rand.dist.uni.int]; libstdc++ asserts it). *)
Definition new (a b : Z) : outcome t :=
  if a <=? b then Returns {| a := a; b := b |} else Undefined.

(** [result_type operator()(URNG& g)] *)
Definition call (dis : t) (g : mt19937.t) : Z * mt19937.t :=
  let (v, k) := uniform_int_draw (a dis) (b dis) (mt19937.stream g) in
  (v, mt19937.discard k g).
End Distribution.
End uniform_int_distribution.

Module uniform_real_distribution.
Section Distribution.
Context {D : StdDistributions}.

Record t : Type := Build { a : double; b : double }.

(** [explicit uniform_real_distribution(double a, double b)]; requires
    [a <= b] and [b - a <= numeric_limits<double>::max()]
    (ISO C++ [rand.dist.uni.real]). *)
Definition new (a b : double) : outcome t :=
  if double_le a b && double_span_fits a b
  then Returns {| a := a; b := b |} else Undefined.

(** [result_type operator()(URNG& g)] *)
Definition call (dis : t) (g : mt19937.t) : double * mt19937.t :=
  let (v, k) := uniform_real_draw (a dis) (b dis) (mt19937.stream g) in
  (v, mt19937.discard k g).
End Distribution.
End uniform_real_distribution.

(** ** luabind: a class registration built by chained [.def] calls *)

Module luabind.
Section Class.
Context {M : Type}.

Inductive registration : Type :=
  | method (name : string) (f : M)
  | constructor_.

Record class_ : Type := Build { name : string; registrations : list registration }.

(** [class_<T>(name)] *)
Definition class_new (name : string) : class_ :=
  {| name := name; registrations := [] |}.

(** [.def(name, &T::f)] *)
Definition def (c : class_) (n : string) (f : M) : class_ :=
  {| name := name c; registrations := registrations c ++ [method n f] |}.

(** [.def(constructor<...>())] *)
Definition def_constructor (c : class_) : class_ :=
  {| name := name c; registrations := registrations c ++ [constructor_] |}.
End Class.
Arguments registration M : clear implicits.
Arguments class_ M : clear implicits.

Definition scope := class_.
End luabind.

(** ** [thrive::RNG] *)

Module RNG.

(** Modelled from the spec: rng.h, which declares [RNG::Seed], is not among
    the sources; the spec gives the seed as an integer "width matching a
    standard 32-bit generator seed", the type [std::mt19937] is seeded
    with and [std::random_device] returns. *)
Definition Seed : Type := Z.

(** The members of the class, as [luaBindings] names them by pointer. *)
Inductive member : Type :=
  | Member_luaBindings
  | Member_setSeed
  | Member_getSeed
  | Member_generateRandomSeed
  | Member_getDouble
  | Member_getInt
  | Member_mersenneTwister.

(** [luabind::scope RNG::luaBindings()] *)
Definition luaBindings : luabind.scope member :=
  luabind.def
    (luabind.def
      (luabind.def
        (luabind.def
          (luabind.def (luabind.class_new "RNG")
            "getInt" Member_getInt)
          "getReal" Member_getDouble)
        "generateRandomSeed" Member_generateRandomSeed)
      "setSeed" Member_setSeed)
    "getSeed" Member_getSeed.

(** [struct RNG::Implementation] *)
Record Implementation : Type := BuildImplementation {
  m_seed : Seed;
  m_rd : random_device.t;
  m_mt : mt19937.t
}.

(** [class RNG]: the pointer to its implementation. *)
Record t : Type := Build { m_impl : Implementation }.

(** [Implementation(Seed seed) : m_seed(seed), m_mt(seed) {}]; the
    default-constructed [m_rd] is the entropy source [rd] of the
    environment. *)
Definition Implementation_seeded (rd : random_device.t) (seed : Seed)
  : Implementation :=
  {| m_seed := seed; m_rd := rd; m_mt := mt19937.new seed |}.

(** [Implementation() { m_seed = m_rd(); m_mt = std::mt19937(m_seed); }] *)
Definition Implementation_default (rd : random_device.t) : Implementation :=
  let (seed, rd) := random_device.call rd in
  {| m_seed := seed; m_rd := rd; m_mt := mt19937.new seed |}.

(** [RNG::RNG() : m_impl(new Implementation())] *)
Definition new (rd : random_device.t) : t :=
  {| m_impl := Implementation_default rd |}.

(** [RNG::RNG(Seed seed) : m_impl(new Implementation(seed))] *)
Definition new_seeded (rd : random_device.t) (seed : Seed) : t :=
  {| m_impl := Implementation_seeded rd seed |}.

(** Assignments through [m_impl->]. *)
Definition set_m_seed (rng : t) (seed : Seed) : t :=
  {| m_impl := {| m_seed := seed;
                  m_rd := m_rd (m_impl rng);
                  m_mt := m_mt (m_impl rng) |} |}.

Definition set_m_rd (rng : t) (rd : random_device.t) : t :=
  {| m_impl := {| m_seed := m_seed (m_impl rng);
                  m_rd := rd;
                  m_mt := m_mt (m_impl rng) |} |}.

Definition set_m_mt (rng : t) (mt : mt19937.t) : t :=
  {| m_impl := {| m_seed := m_seed (m_impl rng);
                  m_rd := m_rd (m_impl rng);
                  m_mt := mt |} |}.

(** [void RNG::setSeed(Seed seed)] *)
Definition setSeed (rng : t) (seed : Seed) : t :=
  let rng := set_m_seed rng seed in
  set_m_mt rng (mt19937.seed (m_mt (m_impl rng)) seed).

(** [RNG::Seed RNG::getSeed() const] *)
Definition getSeed (rng : t) : Seed := m_seed (m_impl rng).

(** [RNG::Seed RNG::generateRandomSeed()] *)
Definition generateRandomSeed (rng : t) : Seed * t :=
  let (v, rd) := random_device.call (m_rd (m_impl rng)) in
  (v, set_m_rd rng rd).

(** [std::mt19937& RNG::mersenneTwister()] *)
Definition mersenneTwister (rng : t) : mt19937.t := m_mt (m_impl rng).

Section Sampling.
Context {D : StdDistributions}.

(** [double RNG::getDouble(double min, double max)] *)
Definition getDouble (rng : t) (min max : double) : outcome (double * t) :=
  let* dis := uniform_real_distribution.new min max in
  let (v, mt) := uniform_real_distribution.call dis (m_mt (m_impl rng)) in
  Returns (v, set_m_mt rng mt).

(** [int RNG::getInt(int min, int max)] *)
Definition getInt (rng : t) (min max : Z) : outcome (Z * t) :=
  let* dis := uniform_int_distribution.new min max in
  let (v, mt) := uniform_int_distribution.call dis (m_mt (m_impl rng)) in
  Returns (v, set_m_mt rng mt).

(** *** Sequences of sampling calls *)

Inductive sampling : Type :=
  | GetInt (min max : Z)
  | GetDouble (min max : double).

Inductive sample : Type :=
  | IntSample (v : Z)
  | DoubleSample (v : double).

Definition sample_call (rng : t) (c : sampling) : outcome (sample * t) :=
  match c with
  | GetInt min max =>
      let* r := getInt rng min max in Returns (IntSample (fst r), snd r)
  | GetDouble min max =>
      let* r := getDouble rng min max in Returns (DoubleSample (fst r), snd r)
  end.

(** The values the calls return, in order, up to the first call (if any)
    that does not return, and what is left of the instance. *)
Fixpoint run (rng : t) (cs : list sampling) : list sample * outcome t :=
  match cs with
  | [] => ([], Returns rng)
  | c :: cs' =>
      match sample_call rng c with
      | Returns (v, rng') => let (vs, r) := run rng' cs' in (v :: vs, r)
      | Throws what => ([], Throws what)
      | Undefined => ([], Undefined)
      end
  end.

Definition outputs (rng : t) (cs : list sampling) : list sample := fst (run rng cs).
Definition final (rng : t) (cs : list sampling) : outcome t := snd (run rng cs).

(** The precondition the standard library puts on the arguments. *)
Definition valid (c : sampling) : Prop :=
  match c with
  | GetInt min max => min <= max
  | GetDouble min max => double_le min max && double_span_fits min max = true
  end.

(** *** The life of an instance: the calls a client can make on it

    [mersenneTwister()] returns the engine by mutable reference, so a client
    can do to it whatever [std::mt19937] allows: [MersenneTwister k] draws
    [k] words from it (a shuffle, a distribution of its own),
    [MersenneTwisterSeed sd] calls [seed(sd)] on it, and
    [MersenneTwisterAssign g] overwrites it with another engine [g] (by
    assignment or by [operator>>]).  None of them touches [m_seed]. *)

Inductive operation : Type :=
  | SetSeed (seed : Seed)
  | GetSeed
  | GenerateRandomSeed
  | Sample (c : sampling)
  | MersenneTwister (k : nat)
  | MersenneTwisterSeed (sd : Z)
  | MersenneTwisterAssign (g : mt19937.t).

Inductive step : t -> operation -> t -> Prop :=
  | step_setSeed rng seed : step rng (SetSeed seed) (setSeed rng seed)
  | step_getSeed rng : step rng GetSeed rng
  | step_generateRandomSeed rng :
      step rng GenerateRandomSeed (snd (generateRandomSeed rng))
  | step_sample rng c v rng' :
      sample_call rng c = Returns (v, rng') -> step rng (Sample c) rng'
  | step_mersenneTwister rng k :
      step rng (MersenneTwister k)
           (set_m_mt rng (mt19937.discard k (mersenneTwister rng)))
  | step_mersenneTwister_seed rng sd :
      step rng (MersenneTwisterSeed sd)
           (set_m_mt rng (mt19937.seed (mersenneTwister rng) sd))
  | step_mersenneTwister_assign rng g :
      mt19937_words g ->
      step rng (MersenneTwisterAssign g) (set_m_mt rng g).

Inductive reachable : t -> Prop :=
  | reachable_new rd : reachable (new rd)
  | reachable_new_seeded rd seed : reachable (new_seeded rd seed)
  | reachable_step rng o rng' : reachable rng -> step rng o rng' -> reachable rng'.



(** The number of words a call takes from the engine. *)
Definition words_drawn (rng : t) (o : operation) : nat :=
  match o with
  | Sample (GetInt min max) =>
      snd (uniform_int_draw min max (mt19937.stream (m_mt (m_impl rng))))
  | Sample (GetDouble min max) =>
      snd (uniform_real_draw min max (mt19937.stream (m_mt (m_impl rng))))
  | MersenneTwister k => k
  | _ => O
  end.

(** [lived allowed rng n]: the instance [rng] is reached by calls that
    [allowed] admits, and [n] words were drawn from its engine since its seed
    was last assigned (by a constructor or by [setSeed]). *)
Inductive lived (allowed : operation -> bool) : t -> nat -> Prop :=
  | lived_new rd : lived allowed (new rd) O
  | lived_new_seeded rd seed : lived allowed (new_seeded rd seed) O
  | lived_step rng n o rng' :
      lived allowed rng n -> allowed o = true -> step rng o rng' ->
      lived allowed rng'
        (match o with SetSeed _ => O | _ => n + words_drawn rng o end).


End Sampling.

(** The engine of the instance holds its [state_size] words. *)
Definition ok (rng : t) : Prop := mt19937.ok (m_mt (m_impl rng)).

(** Two instances whose engines are in the same state, whatever their seeds
    and entropy sources; two runs that end alike on such instances. *)
Definition same_engine (r1 r2 : t) : Prop := m_mt (m_impl r1) = m_mt (m_impl r2).

Definition same_end (o1 o2 : outcome t) : Prop :=
  match o1, o2 with
  | Returns r1, Returns r2 => same_engine r1 r2
  | Throws w1, Throws w2 => w1 = w2
  | Undefined, Undefined => True
  | _, _ => False
  end.

End RNG.

(** ** A client of the class: a sequence of calls on one instance *)

Module client.
Section Program.
Context {D : StdDistributions}.

(** What a call hands back to the client. *)
Inductive reply : Type :=
  | NoReply
  | SeedReply (seed : RNG.Seed)
  | SampleReply (v : RNG.sample).

(** One call of the client on the instance. *)
Definition perform (rng : RNG.t) (o : RNG.operation) : outcome (reply * RNG.t) :=
  match o with
  | RNG.SetSeed seed => Returns (NoReply, RNG.setSeed rng seed)
  | RNG.GetSeed => Returns (SeedReply (RNG.getSeed rng), rng)
  | RNG.GenerateRandomSeed =>
      let (seed, rng') := RNG.generateRandomSeed rng in Returns (SeedReply seed, rng')
  | RNG.Sample c =>
      let* r := RNG.sample_call rng c in Returns (SampleReply (fst r), snd r)
  | RNG.MersenneTwister k =>
      Returns (NoReply, RNG.set_m_mt rng (mt19937.discard k (RNG.mersenneTwister rng)))
  | RNG.MersenneTwisterSeed sd =>
      Returns (NoReply, RNG.set_m_mt rng (mt19937.seed (RNG.mersenneTwister rng) sd))
  | RNG.MersenneTwisterAssign g => Returns (NoReply, RNG.set_m_mt rng g)
  end.

(** The replies to the calls, in order, up to the first call (if any) that
    does not return, and what is left of the instance. *)
Fixpoint perform_all (rng : RNG.t) (ops : list RNG.operation)
  : list reply * outcome RNG.t :=
  match ops with
  | [] => ([], Returns rng)
  | o :: ops' =>
      match perform rng o with
      | Returns (r, rng') => let (rs, e) := perform_all rng' ops' in (r :: rs, e)
      | Throws what => ([], Throws what)
      | Undefined => ([], Undefined)
      end
  end.

Definition replies (rng : RNG.t) (ops : list RNG.operation) : list reply :=
  fst (perform_all rng ops).
Definition final (rng : RNG.t) (ops : list RNG.operation) : outcome RNG.t :=
  snd (perform_all rng ops).

(** The sampled values among the replies. *)
Definition sample_of (r : reply) : option RNG.sample :=
  match r with
  | SampleReply v => Some v
  | _ => None
  end.

Definition samples (rs : list reply) : list RNG.sample := omap sample_of rs.

(** [getSeed] and [generateRandomSeed]: the calls that only ask. *)
Definition is_query (o : RNG.operation) : bool :=
  match o with
  | RNG.GetSeed | RNG.GenerateRandomSeed => true
  | _ => false
  end.

Definition draws_entropy (o : RNG.operation) : bool :=
  match o with
  | RNG.GenerateRandomSeed => true
  | _ => false
  end.

(** The seed the last [setSeed] of [ops] assigns, [seed] if there is none. *)
Definition last_seed (seed : RNG.Seed) (ops : list RNG.operation) : RNG.Seed :=
  fold_left (fun s o => match o with RNG.SetSeed s' => s' | _ => s end) ops seed.

End Program.
End client.

(** ** A reference implementation of the distributions

    One choice the standard allows, on primitive IEEE binary64 numbers.
    Integers: one engine word reduced into [[a, b]].  Doubles: two engine
    words make a number in [[0, 1)], scaled by [b - a] and shifted by [a];
    a result that rounding carried out of [[a, b]] is replaced by [a]. *)

Module reference.

Definition uniform_int_draw (a b : Z) (s : nat -> Z) : Z * nat :=
  (a + s O mod (b - a + 1), 1%nat).

Definition to_double (z : Z) : float := PrimFloat.of_uint63 (Uint63.of_Z z).

Definition generate_canonical (s : nat -> Z) : float :=
  ((to_double (s 0%nat) + to_double (s 1%nat) * 4294967296) / 18446744073709551616)%float.

Definition span_fits (a b : float) : bool := PrimFloat.is_finite (b - a)%float.

Definition uniform_real_draw (a b : float) (s : nat -> Z) : float * nat :=
  let x := (generate_canonical s * (b - a) + a)%float in
  (if PrimFloat.leb a x && PrimFloat.leb x b then x else a, 2%nat).

Definition distributions : StdDistributions :=
  Build_StdDistributions float PrimFloat.leb span_fits uniform_int_draw uniform_real_draw.

(** [numeric_limits<double>::max()] *)
Definition DBL_MAX : float := 0x1.fffffffffffffp+1023%float.

(** An entropy source. *)
Definition entropy_source : random_device.t :=
  {| random_device.entropy := fun n => 2654435761 * Z.of_nat (S n);
     random_device.drawn := O |}.

End reference.

(** * Properties *)

(** ** The engine *)

Lemma mt19937_seed_loop_length (count from : nat) (x : list Z) :
  length (mt19937.seed_loop count from x) = length x.
Proof.
  revert from x; induction count as [|count IH]; intros from x; simpl.
  - reflexivity.
  - rewrite IH. apply length_insert.
Qed.

Lemma mt19937_gen_loop_length (km : nat -> nat) (count from : nat) (x : list Z) :
  length (mt19937.gen_loop km count from x) = length x.
Proof.
  revert from x; induction count as [|count IH]; intros from x; simpl.
  - reflexivity.
  - rewrite IH. apply length_insert.
Qed.

(** The seeding loop reads only cells it wrote before: on two arrays of the
    same size that agree below [from], it produces arrays that agree below
    [from + count]. *)
Lemma mt19937_seed_loop_agree (count from : nat) (x x' : list Z) :
  length x = length x' ->
  (1 <= from)%nat ->
  (from + count <= length x)%nat ->
  (forall j, (j < from)%nat -> x !! j = x' !! j) ->
  forall j, (j < from + count)%nat ->
    mt19937.seed_loop count from x !! j = mt19937.seed_loop count from x' !! j.
Proof.
  revert from x x'; induction count as [|count IH];
    intros from x x' Hlen Hfrom Hfit Hagree j Hj; simpl.
  - apply Hagree. lia.
  - assert (Hprev : mt19937.word x (from - 1) = mt19937.word x' (from - 1)).
    { unfold mt19937.word. rewrite (Hagree (from - 1)%nat) by lia. reflexivity. }
    rewrite Hprev.
    apply IH.
    + rewrite !length_insert. exact Hlen.
    + lia.
    + rewrite length_insert. lia.
    + intros i Hi. destruct (decide (i = from)) as [->|Hne].
      * rewrite !list_lookup_insert_eq by lia. reflexivity.
      * rewrite !list_lookup_insert_ne by congruence. apply Hagree. lia.
    + lia.
Qed.

(** [seed] leaves nothing of the previous state. *)
Lemma mt19937_seed_fresh (g g' : mt19937.t) (sd : Z) :
  mt19937.ok g -> mt19937.ok g' -> mt19937.seed g sd = mt19937.seed g' sd.
Proof.
  unfold mt19937.ok. intros Hg Hg'.
  cbv beta delta [mt19937.seed] zeta. f_equal.
  set (n := mt19937.state_size) in *.
  assert (Hn : (1 <= n)%nat) by (subst n; unfold mt19937.state_size; lia).
  apply list_eq. intros j.
  destruct (decide (j < n)%nat) as [Hj|Hj].
  - apply mt19937_seed_loop_agree.
    + rewrite !length_insert. congruence.
    + lia.
    + rewrite length_insert, Hg. lia.
    + intros i Hi. assert (i = O) as -> by lia.
      rewrite !list_lookup_insert_eq by lia. reflexivity.
    + lia.
  - rewrite !lookup_ge_None_2; [reflexivity | |];
      rewrite mt19937_seed_loop_length, length_insert; lia.
Qed.

Lemma mt19937_seed_ok (g : mt19937.t) (sd : Z) :
  mt19937.ok g -> mt19937.ok (mt19937.seed g sd).
Proof.
  unfold mt19937.ok. intros Hg.
  cbv beta delta [mt19937.seed mt19937.M_x] iota zeta.
  rewrite mt19937_seed_loop_length, length_insert. exact Hg.
Qed.

Lemma mt19937_uninitialized_ok : mt19937.ok mt19937.uninitialized.
Proof. apply length_replicate. Qed.

Lemma mt19937_new_ok (sd : Z) : mt19937.ok (mt19937.new sd).
Proof. apply mt19937_seed_ok, mt19937_uninitialized_ok. Qed.

(** The member [seed] and the seeding constructor build the same engine. *)
Lemma mt19937_seed_new (g : mt19937.t) (sd : Z) :
  mt19937.ok g -> mt19937.seed g sd = mt19937.new sd.
Proof. intros Hg. apply mt19937_seed_fresh; [exact Hg | apply mt19937_uninitialized_ok]. Qed.

Lemma mt19937_gen_rand_ok (g : mt19937.t) :
  mt19937.ok g -> mt19937.ok (mt19937.gen_rand g).
Proof.
  unfold mt19937.ok. intros Hg.
  cbv beta delta [mt19937.gen_rand mt19937.M_x] iota zeta.
  rewrite length_insert, !mt19937_gen_loop_length. exact Hg.
Qed.

Lemma mt19937_call_ok (g : mt19937.t) :
  mt19937.ok g -> mt19937.ok (snd (mt19937.call g)).
Proof.
  intros Hg. unfold mt19937.call.
  destruct (mt19937.state_size <=? mt19937.M_p g)%nat.
  - apply (mt19937_gen_rand_ok g Hg).
  - exact Hg.
Qed.

Lemma mt19937_discard_ok (k : nat) (g : mt19937.t) :
  mt19937.ok g -> mt19937.ok (mt19937.discard k g).
Proof.
  revert g; induction k as [|k IH]; intros g Hg.
  - exact Hg.
  - apply (IH _ (mt19937_call_ok g Hg)).
Qed.


(** ISO C++ [rand.predef]: "the 10000th consecutive invocation of a
    default-constructed object of type [mt19937] shall produce the value
    4123659995". *)
Example mt19937_10000th :
  mt19937.stream (mt19937.new mt19937.default_seed) (Z.to_nat 9999) = 4123659995.
Proof. vm_compute. reflexivity. Qed.

Example mt19937_first_5489 :
  mt19937.stream (mt19937.new mt19937.default_seed) 0 = 3499211612.
Proof. vm_compute. reflexivity. Qed.

(** ** Sampling calls *)

Section SamplingFacts.
Context {D : StdDistributions}.

(** A sampling call that returns has only advanced the engine. *)
Lemma RNG_sample_call_returns (rng rng' : RNG.t) (c : RNG.sampling) (v : RNG.sample) :
  RNG.sample_call rng c = Returns (v, rng') ->
  RNG.valid c /\
  exists k, rng' = RNG.set_m_mt rng (mt19937.discard k (RNG.m_mt (RNG.m_impl rng))).
Proof.
  destruct c as [min max|min max]; cbn [RNG.sample_call RNG.valid].
  - unfold RNG.getInt, uniform_int_distribution.new, uniform_int_distribution.call.
    destruct (Z.leb_spec min max) as [Hle|Hgt]; cbn; [|discriminate].
    destruct (uniform_int_draw min max _) as [w k]; cbn.
    intros [= <- <-]. split; [exact Hle | exists k; reflexivity].
  - unfold RNG.getDouble, uniform_real_distribution.new, uniform_real_distribution.call.
    destruct (double_le min max && double_span_fits min max) eqn:Hreq; cbn;
      [|discriminate].
    destruct (uniform_real_draw min max _) as [w k]; cbn.
    intros [= <- <-]. split; [reflexivity | exists k; reflexivity].
Qed.

(** A sampling call whose arguments meet the precondition returns. *)
Lemma RNG_sample_call_valid (rng : RNG.t) (c : RNG.sampling) :
  RNG.valid c -> well_defined (RNG.sample_call rng c).
Proof.
  destruct c as [min max|min max]; cbn [RNG.sample_call RNG.valid]; intros Hv.
  - unfold RNG.getInt, uniform_int_distribution.new, uniform_int_distribution.call.
    destruct (Z.leb_spec min max) as [Hle|Hgt]; [|lia]. cbn.
    destruct (uniform_int_draw min max _) as [w k]; cbn. eexists; reflexivity.
  - unfold RNG.getDouble, uniform_real_distribution.new, uniform_real_distribution.call.
    rewrite Hv. cbn.
    destruct (uniform_real_draw min max _) as [w k]; cbn. eexists; reflexivity.
Qed.

(** A sampling call that does not return has met undefined behaviour: the
    source has no [throw]. *)
Lemma RNG_sample_call_not_valid (rng : RNG.t) (c : RNG.sampling) :
  ~ RNG.valid c -> RNG.sample_call rng c = Undefined.
Proof.
  destruct c as [min max|min max]; cbn [RNG.sample_call RNG.valid]; intros Hv.
  - unfold RNG.getInt, uniform_int_distribution.new.
    destruct (Z.leb_spec min max) as [Hle|Hgt]; [contradiction|]. reflexivity.
  - unfold RNG.getDouble, uniform_real_distribution.new.
    destruct (double_le min max && double_span_fits min max); [congruence|].
    reflexivity.
Qed.

(** What a sampling call does is decided by the engine alone. *)
Lemma RNG_sample_call_same_engine (r1 r2 : RNG.t) (c : RNG.sampling) :
  RNG.same_engine r1 r2 ->
  match RNG.sample_call r1 c, RNG.sample_call r2 c with
  | Returns (v1, r1'), Returns (v2, r2') => v1 = v2 /\ RNG.same_engine r1' r2'
  | Throws w1, Throws w2 => w1 = w2
  | Undefined, Undefined => True
  | _, _ => False
  end.
Proof.
  unfold RNG.same_engine. intros He.
  destruct c as [min max|min max]; cbn [RNG.sample_call].
  - unfold RNG.getInt, uniform_int_distribution.new, uniform_int_distribution.call.
    rewrite He. destruct (min <=? max); cbn; [|exact I].
    destruct (uniform_int_draw min max _) as [w k]; cbn. split; reflexivity.
  - unfold RNG.getDouble, uniform_real_distribution.new, uniform_real_distribution.call.
    rewrite He. destruct (double_le min max && double_span_fits min max); cbn;
      [|exact I].
    destruct (uniform_real_draw min max _) as [w k]; cbn. split; reflexivity.
Qed.

Lemma RNG_run_cons (rng : RNG.t) (c : RNG.sampling) (cs : list RNG.sampling) :
  RNG.run rng (c :: cs) =
  match RNG.sample_call rng c with
  | Returns (v, rng') => (v :: RNG.outputs rng' cs, RNG.final rng' cs)
  | Throws what => ([], Throws what)
  | Undefined => ([], Undefined)
  end.
Proof.
  cbn [RNG.run]. destruct (RNG.sample_call rng c) as [[v rng']|w|]; try reflexivity.
  unfold RNG.outputs, RNG.final. destruct (RNG.run rng' cs); reflexivity.
Qed.

Lemma RNG_run_same_engine (cs : list RNG.sampling) (r1 r2 : RNG.t) :
  RNG.same_engine r1 r2 ->
  RNG.outputs r1 cs = RNG.outputs r2 cs /\
  RNG.same_end (RNG.final r1 cs) (RNG.final r2 cs).
Proof.
  revert r1 r2; induction cs as [|c cs IH]; intros r1 r2 He.
  - split; [reflexivity | exact He].
  - unfold RNG.outputs, RNG.final. rewrite !RNG_run_cons.
    pose proof (RNG_sample_call_same_engine r1 r2 c He) as Hc.
    destruct (RNG.sample_call r1 c) as [[v1 r1']|w1|],
             (RNG.sample_call r2 c) as [[v2 r2']|w2|]; try contradiction.
    + destruct Hc as [-> He']. destruct (IH r1' r2' He') as [Ho Hf].
      cbn [fst snd]. rewrite Ho. split; [reflexivity | exact Hf].
    + split; [reflexivity | exact Hc].
    + split; [reflexivity | exact I].
Qed.

(** A run that ends has kept seed and entropy source, and an engine of the
    right size. *)
Lemma RNG_run_frame (cs : list RNG.sampling) (rng rng' : RNG.t) :
  RNG.final rng cs = Returns rng' ->
  RNG.m_seed (RNG.m_impl rng') = RNG.m_seed (RNG.m_impl rng) /\
  RNG.m_rd (RNG.m_impl rng') = RNG.m_rd (RNG.m_impl rng) /\
  (RNG.ok rng -> RNG.ok rng').
Proof.
  revert rng; induction cs as [|c cs IH]; intros rng.
  - intros [= ->]. auto.
  - unfold RNG.final. rewrite RNG_run_cons.
    destruct (RNG.sample_call rng c) as [[v r1]|w|] eqn:Hc; cbn [snd]; try discriminate.
    intros Hf. destruct (IH _ Hf) as (Hs & Hr & Hok).
    destruct (RNG_sample_call_returns _ _ _ _ Hc) as [_ [k ->]].
    cbn in Hs, Hr. repeat split; try assumption.
    intros Hrng. apply Hok. apply mt19937_discard_ok, Hrng.
Qed.

Lemma RNG_run_valid (cs : list RNG.sampling) (rng : RNG.t) :
  Forall RNG.valid cs -> well_defined (RNG.final rng cs).
Proof.
  intros Hv; revert rng; induction Hv as [|c cs Hc _ IH]; intros rng.
  - eexists; reflexivity.
  - unfold RNG.final. rewrite RNG_run_cons.
    destruct (RNG_sample_call_valid rng c Hc) as [[v r1] ->]. apply IH.
Qed.

End SamplingFacts.

(** ** The reference distributions obey the standard *)

Lemma reference_uniform_int_law : UniformIntLaw reference.distributions.
Proof.
  constructor. intros a b s _ _ Hab.
  cbn [uniform_int_draw reference.distributions reference.uniform_int_draw fst].
  pose proof (Z.mod_pos_bound (s O) (b - a + 1)) as Hm. lia.
Qed.

(** A number that is below another one is no NaN, so it is below itself. *)
Lemma float_leb_refl_l (a b : float) :
  PrimFloat.leb a b = true -> PrimFloat.leb a a = true.
Proof.
  rewrite !leb_spec. unfold SFleb.
  destruct (Prim2SF a) as [sa|sa| |sa m e]; cbn [SFcompare].
  - reflexivity.
  - destruct sa; reflexivity.
  - discriminate.
  - intros _. rewrite Z.compare_refl, Pos.compare_cont_refl. destruct sa; reflexivity.
Qed.

Lemma reference_uniform_real_law : UniformRealLaw reference.distributions.
Proof.
  constructor. intros a b s Hab _.
  cbn [uniform_real_draw double_le reference.distributions
       reference.uniform_real_draw fst].
  destruct (PrimFloat.leb a _ && PrimFloat.leb _ b) eqn:Hin.
  - apply andb_true_iff in Hin. exact Hin.
  - split; [exact (float_leb_refl_l a b Hab) | exact Hab].
Qed.

(** ** The class *)

Section Claims.
Context {D : StdDistributions}.

(** C1. Two instances built by [RNG(seed)] from the same seed, whatever their
    entropy sources, answer one sequence of [getInt]/[getDouble] calls with
    the same values, and end alike (both still running with engines in the
    same state, or both stopped at the same call). *)
Theorem RNG_seeded_determinism
    (seed : RNG.Seed) (rd1 rd2 : random_device.t) (cs : list RNG.sampling) :
  RNG.outputs (RNG.new_seeded rd1 seed) cs = RNG.outputs (RNG.new_seeded rd2 seed) cs /\
  RNG.same_end (RNG.final (RNG.new_seeded rd1 seed) cs)
               (RNG.final (RNG.new_seeded rd2 seed) cs).
Proof. apply RNG_run_same_engine. reflexivity. Qed.

(** C2. [setSeed(seed)] on an existing instance leaves it with the stored
    seed and the engine state of a fresh [RNG(seed)], so every sequence of
    sampling calls returns the same values on both. *)
Theorem RNG_setSeed_resets
    (rng : RNG.t) (rd : random_device.t) (seed : RNG.Seed) (cs : list RNG.sampling) :
  RNG.ok rng ->
  RNG.getSeed (RNG.setSeed rng seed) = RNG.getSeed (RNG.new_seeded rd seed) /\
  RNG.mersenneTwister (RNG.setSeed rng seed) = RNG.mersenneTwister (RNG.new_seeded rd seed) /\
  RNG.outputs (RNG.setSeed rng seed) cs = RNG.outputs (RNG.new_seeded rd seed) cs /\
  RNG.same_end (RNG.final (RNG.setSeed rng seed) cs)
               (RNG.final (RNG.new_seeded rd seed) cs).
Proof.
  intros Hok.
  assert (He : RNG.same_engine (RNG.setSeed rng seed) (RNG.new_seeded rd seed)).
  { unfold RNG.same_engine. cbn. apply mt19937_seed_new, Hok. }
  split; [reflexivity|]. split; [exact He|].
  apply RNG_run_same_engine, He.
Qed.

(** C3. [getSeed()] right after [RNG(s)] returns [s]; [getSeed()] after
    [setSeed(s2)] returns [s2]. *)
Theorem RNG_getSeed_returns_seed
    (rd : random_device.t) (rng : RNG.t) (s s2 : RNG.Seed) :
  RNG.getSeed (RNG.new_seeded rd s) = s /\
  RNG.getSeed (RNG.setSeed rng s2) = s2.
Proof. split; reflexivity. Qed.

(** C4. For [int]s [min <= max] and every state of the instance,
    [getInt(min, max)] returns a value [v] with [min <= v <= max], given a
    standard library whose [uniform_int_distribution] obeys the standard. *)
Theorem RNG_getInt_in_range
    (L : UniformIntLaw D) (rng : RNG.t) (min max : Z) :
  is_int min -> is_int max -> min <= max ->
  exists (v : Z) (rng' : RNG.t),
    RNG.getInt rng min max = Returns (v, rng') /\ min <= v <= max.
Proof.
  intros Hmin Hmax Hle.
  unfold RNG.getInt, uniform_int_distribution.new, uniform_int_distribution.call.
  destruct (Z.leb_spec min max) as [_|Hgt]; [|lia]. cbn.
  pose proof (uniform_int_in_range min max
                (mt19937.stream (RNG.m_mt (RNG.m_impl rng))) Hmin Hmax Hle) as Hr.
  destruct (uniform_int_draw min max _) as [v k]; cbn in *.
  eexists _, _. split; [reflexivity | exact Hr].
Qed.

(** C5, as amended. With [min > max], [getInt(min, max)] checks nothing and
    swaps nothing: it builds [uniform_int_distribution<int>(min, max)]
    against that constructor's precondition, and the behaviour of the call
    is undefined. *)
Theorem RNG_getInt_reversed_undefined (rng : RNG.t) (min max : Z) :
  max < min -> RNG.getInt rng min max = Undefined.
Proof.
  intros Hgt. unfold RNG.getInt, uniform_int_distribution.new.
  destruct (Z.leb_spec min max) as [Hle|_]; [lia | reflexivity].
Qed.

(** C6. [generateRandomSeed()] changes neither the stored seed nor the
    engine; the sampling calls that follow return what they would have
    returned without it. *)
Theorem RNG_generateRandomSeed_frame (rng : RNG.t) (cs : list RNG.sampling) :
  RNG.getSeed (snd (RNG.generateRandomSeed rng)) = RNG.getSeed rng /\
  RNG.mersenneTwister (snd (RNG.generateRandomSeed rng)) = RNG.mersenneTwister rng /\
  RNG.outputs (snd (RNG.generateRandomSeed rng)) cs = RNG.outputs rng cs /\
  RNG.same_end (RNG.final (snd (RNG.generateRandomSeed rng)) cs) (RNG.final rng cs).
Proof.
  split; [reflexivity|]. split; [reflexivity|].
  apply RNG_run_same_engine. reflexivity.
Qed.



Lemma RNG_lived_reachable (allowed : RNG.operation -> bool) (rng : RNG.t) (n : nat) :
  RNG.lived allowed rng n -> RNG.reachable rng.
Proof.
  induction 1 as [rd|rd seed|rng n o rng' _ Hr _ Hstep].
  - constructor.
  - constructor.
  - exact (RNG.reachable_step _ _ _ Hr Hstep).
Qed.




(** C8, as amended. For doubles [min <= max] whose difference [max - min]
    does not overflow, and every state of the instance, [getDouble(min, max)]
    returns a value [v] with [min <= v <= max], given a standard library
    whose [uniform_real_distribution] stays within its bounds. *)
Theorem RNG_getDouble_in_range
    (L : UniformRealLaw D) (rng : RNG.t) (min max : double) :
  double_le min max = true -> double_span_fits min max = true ->
  exists (v : double) (rng' : RNG.t),
    RNG.getDouble rng min max = Returns (v, rng') /\
    double_le min v = true /\ double_le v max = true.
Proof.
  intros Hle Hfit.
  unfold RNG.getDouble, uniform_real_distribution.new, uniform_real_distribution.call.
  rewrite Hle, Hfit. cbn.
  pose proof (uniform_real_in_range min max
                (mt19937.stream (RNG.m_mt (RNG.m_impl rng))) Hle Hfit) as Hr.
  destruct (uniform_real_draw min max _) as [v k]; cbn in *.
  eexists _, _. split; [reflexivity | exact Hr].
Qed.

(** C10. Sampling never touches the stored seed: after a [getInt], a
    [getDouble], or any sequence of them that returns, [getSeed()] is what it
    was; and the calls do return when their arguments meet the
    distributions' preconditions. *)
Theorem RNG_sampling_keeps_seed (rng : RNG.t) :
  (forall min max v rng',
      RNG.getInt rng min max = Returns (v, rng') -> RNG.getSeed rng' = RNG.getSeed rng) /\
  (forall min max v rng',
      RNG.getDouble rng min max = Returns (v, rng') -> RNG.getSeed rng' = RNG.getSeed rng) /\
  (forall cs rng',
      RNG.final rng cs = Returns rng' -> RNG.getSeed rng' = RNG.getSeed rng) /\
  (forall cs,
      Forall RNG.valid cs ->
      exists rng', RNG.final rng cs = Returns rng' /\ RNG.getSeed rng' = RNG.getSeed rng).
Proof.
  assert (Hseq : forall cs rng',
             RNG.final rng cs = Returns rng' -> RNG.getSeed rng' = RNG.getSeed rng).
  { intros cs rng' Hf. apply (RNG_run_frame cs rng rng' Hf). }
  assert (Hone : forall c v rng',
             RNG.sample_call rng c = Returns (v, rng') -> RNG.getSeed rng' = RNG.getSeed rng).
  { intros c v rng' Hc. apply (Hseq [c]).
    unfold RNG.final. rewrite RNG_run_cons, Hc. reflexivity. }
  repeat split.
  - intros min max v rng' Hc. apply (Hone (RNG.GetInt min max) (RNG.IntSample v)).
    cbn [RNG.sample_call]. rewrite Hc. reflexivity.
  - intros min max v rng' Hc. apply (Hone (RNG.GetDouble min max) (RNG.DoubleSample v)).
    cbn [RNG.sample_call]. rewrite Hc. reflexivity.
  - exact Hseq.
  - intros cs Hv. destruct (RNG_run_valid cs rng Hv) as [rng' Hf].
    exists rng'. split; [exact Hf | apply (Hseq cs rng' Hf)].
Qed.

End Claims.

(** C9. [luaBindings()] registers the class under the name "RNG" with exactly
    five methods: [getInt], [getReal] (bound to [getDouble]),
    [generateRandomSeed], [setSeed] and [getSeed]; it registers no
    constructor and binds [mersenneTwister] under no name. *)
Theorem RNG_luaBindings_registers :
  luabind.name RNG.luaBindings = "RNG"%string /\
  luabind.registrations RNG.luaBindings =
    [ luabind.method "getInt" RNG.Member_getInt;
      luabind.method "getReal" RNG.Member_getDouble;
      luabind.method "generateRandomSeed" RNG.Member_generateRandomSeed;
      luabind.method "setSeed" RNG.Member_setSeed;
      luabind.method "getSeed" RNG.Member_getSeed ] /\
  length (luabind.registrations RNG.luaBindings) = 5%nat /\
  ~ In luabind.constructor_ (luabind.registrations RNG.luaBindings) /\
  (forall n, ~ In (luabind.method n RNG.Member_mersenneTwister)
                  (luabind.registrations RNG.luaBindings)).
Proof.
  repeat split.
  - cbn. intros H. repeat (destruct H as [H|H]; [discriminate H|]). exact H.
  - cbn. intros n H. repeat (destruct H as [H|H]; [discriminate H|]). exact H.
Qed.

(** ** Concrete runs *)

(** C5 fails on the code: [getInt(5, 1)] on the instance [RNG(42)] has
    undefined behaviour; it neither returns a value of [[1, 5]] nor throws. *)
Lemma RNG_getInt_reversed_counterexample :
  @RNG.getInt reference.distributions
     (RNG.new_seeded reference.entropy_source 42) 5 1 = Undefined /\
  ~ ((exists v rng',
         @RNG.getInt reference.distributions
            (RNG.new_seeded reference.entropy_source 42) 5 1 = Returns (v, rng') /\
         1 <= v <= 5) \/
     (exists what,
         @RNG.getInt reference.distributions
            (RNG.new_seeded reference.entropy_source 42) 5 1 = Throws what)).
Proof.
  assert (Hu : @RNG.getInt reference.distributions
                 (RNG.new_seeded reference.entropy_source 42) 5 1 = Undefined)
    by reflexivity.
  split; [exact Hu|]. rewrite Hu.
  intros [(v & rng' & H & _)|[what H]]; discriminate H.
Qed.

(** C8 fails on the code: [-DBL_MAX <= DBL_MAX], but their difference
    overflows, which the precondition of [uniform_real_distribution] rules
    out; [getDouble(-DBL_MAX, DBL_MAX)] has undefined behaviour and returns no
    value of [[-DBL_MAX, DBL_MAX]]. *)
Lemma RNG_getDouble_in_range_counterexample :
  @double_le reference.distributions (- reference.DBL_MAX)%float reference.DBL_MAX = true /\
  @RNG.getDouble reference.distributions
     (RNG.new_seeded reference.entropy_source 42)
     (- reference.DBL_MAX)%float reference.DBL_MAX = Undefined /\
  ~ (exists v rng',
        @RNG.getDouble reference.distributions
           (RNG.new_seeded reference.entropy_source 42)
           (- reference.DBL_MAX)%float reference.DBL_MAX = Returns (v, rng') /\
        @double_le reference.distributions (- reference.DBL_MAX)%float v = true /\
        @double_le reference.distributions v reference.DBL_MAX = true).
Proof.
  assert (Hu : @RNG.getDouble reference.distributions
                 (RNG.new_seeded reference.entropy_source 42)
                 (- reference.DBL_MAX)%float reference.DBL_MAX = Undefined)
    by reflexivity.
  split; [reflexivity|]. split; [exact Hu|]. rewrite Hu.
  intros (v & rng' & H & _). discriminate H.
Qed.

Lemma RNG_getDouble_in_range_witness :
  @double_le reference.distributions 0%float 1%float = true /\
  @double_span_fits reference.distributions 0%float 1%float = true /\
  exists (v : float) (rng' : RNG.t),
    @RNG.getDouble reference.distributions
       (RNG.new_seeded reference.entropy_source 42) 0%float 1%float = Returns (v, rng') /\
    PrimFloat.leb 0%float v = true /\ PrimFloat.leb v 1%float = true.
Proof.
  assert (Hle : @double_le reference.distributions 0%float 1%float = true) by reflexivity.
  assert (Hfit : @double_span_fits reference.distributions 0%float 1%float = true)
    by reflexivity.
  split; [exact Hle|]. split; [exact Hfit|].
  exact (@RNG_getDouble_in_range reference.distributions reference_uniform_real_law
           (RNG.new_seeded reference.entropy_source 42) 0%float 1%float Hle Hfit).
Defined.

Lemma RNG_setSeed_resets_witness :
  RNG.ok (snd (RNG.generateRandomSeed (RNG.new reference.entropy_source))) /\
  (RNG.getSeed (RNG.setSeed (snd (RNG.generateRandomSeed (RNG.new reference.entropy_source))) 42)
   = RNG.getSeed (RNG.new_seeded reference.entropy_source 42) /\
   RNG.mersenneTwister
     (RNG.setSeed (snd (RNG.generateRandomSeed (RNG.new reference.entropy_source))) 42)
   = RNG.mersenneTwister (RNG.new_seeded reference.entropy_source 42) /\
   @RNG.outputs reference.distributions
     (RNG.setSeed (snd (RNG.generateRandomSeed (RNG.new reference.entropy_source))) 42)
     [RNG.GetInt 1 6; RNG.GetInt 1 6]
   = @RNG.outputs reference.distributions
       (RNG.new_seeded reference.entropy_source 42) [RNG.GetInt 1 6; RNG.GetInt 1 6] /\
   RNG.same_end
     (@RNG.final reference.distributions
        (RNG.setSeed (snd (RNG.generateRandomSeed (RNG.new reference.entropy_source))) 42)
        [RNG.GetInt 1 6; RNG.GetInt 1 6])
     (@RNG.final reference.distributions
        (RNG.new_seeded reference.entropy_source 42) [RNG.GetInt 1 6; RNG.GetInt 1 6])).
Proof.
  assert (Hok : RNG.ok (snd (RNG.generateRandomSeed (RNG.new reference.entropy_source))))
    by (vm_compute; reflexivity).
  split; [exact Hok|].
  exact (@RNG_setSeed_resets reference.distributions _ _ 42 _ Hok).
Defined.

Lemma RNG_getInt_in_range_witness :
  is_int 1 /\ is_int 6 /\ 1 <= 6 /\
  exists (v : Z) (rng' : RNG.t),
    @RNG.getInt reference.distributions
       (RNG.new_seeded reference.entropy_source 42) 1 6 = Returns (v, rng') /\
    1 <= v <= 6.
Proof.
  assert (H1 : is_int 1) by (unfold is_int; lia).
  assert (H6 : is_int 6) by (unfold is_int; lia).
  assert (Hle : 1 <= 6) by lia.
  repeat split; try assumption.
  exact (@RNG_getInt_in_range reference.distributions reference_uniform_int_law
           (RNG.new_seeded reference.entropy_source 42) 1 6 H1 H6 Hle).
Defined.

Lemma RNG_getInt_reversed_undefined_witness :
  1 < 5 /\
  @RNG.getInt reference.distributions
     (RNG.new_seeded reference.entropy_source 42) 5 1 = Undefined.
Proof.
  assert (Hgt : 1 < 5) by lia.
  split; [exact Hgt|].
  exact (@RNG_getInt_reversed_undefined reference.distributions
           (RNG.new_seeded reference.entropy_source 42) 5 1 Hgt).
Defined.



Lemma RNG_sampling_keeps_seed_witness :
  Forall (@RNG.valid reference.distributions)
    [RNG.GetInt 1 6; @RNG.GetDouble reference.distributions 0%float 1%float] /\
  exists rng',
    @RNG.final reference.distributions (RNG.new_seeded reference.entropy_source 42)
      [RNG.GetInt 1 6; @RNG.GetDouble reference.distributions 0%float 1%float]
    = Returns rng' /\
    RNG.getSeed rng' = RNG.getSeed (RNG.new_seeded reference.entropy_source 42).
Proof.
  assert (Hv : Forall (@RNG.valid reference.distributions)
                 [RNG.GetInt 1 6; @RNG.GetDouble reference.distributions 0%float 1%float]).
  { repeat constructor. cbn. lia. }
  split; [exact Hv|].
  exact (proj2 (proj2 (proj2 (@RNG_sampling_keeps_seed reference.distributions
           (RNG.new_seeded reference.entropy_source 42)))) _ Hv).
Defined.

(** The scenario of the specification on the reference distributions:
    [RNG(42)], then [getInt(1, 6)] five times. *)
Example RNG_42_five_dice :
  @RNG.outputs reference.distributions (RNG.new_seeded reference.entropy_source 42)
    [RNG.GetInt 1 6; RNG.GetInt 1 6; RNG.GetInt 1 6; RNG.GetInt 1 6; RNG.GetInt 1 6]
  = [RNG.IntSample 1; RNG.IntSample 6; RNG.IntSample 5; RNG.IntSample 5; RNG.IntSample 1].
Proof. vm_compute. reflexivity. Qed.

(** ** Histories of calls *)

Section ClientFacts.
Context {D : StdDistributions}.

Lemma client_perform_all_cons (rng : RNG.t) (o : RNG.operation) (ops : list RNG.operation) :
  client.perform_all rng (o :: ops) =
  match client.perform rng o with
  | Returns (r, rng') => (r :: client.replies rng' ops, client.final rng' ops)
  | Throws what => ([], Throws what)
  | Undefined => ([], Undefined)
  end.
Proof.
  cbn [client.perform_all].
  destruct (client.perform rng o) as [[r rng']|w|]; try reflexivity.
  unfold client.replies, client.final. destruct (client.perform_all rng' ops); reflexivity.
Qed.

Lemma client_samples_cons (p : client.reply) (rs : list client.reply) :
  client.samples (p :: rs) =
  match client.sample_of p with
  | Some v => v :: client.samples rs
  | None => client.samples rs
  end.
Proof. reflexivity. Qed.

(** The calls of a client are the steps of the instance's life (an engine a
    client assigns being one a program can hold). *)
Lemma client_perform_step (rng rng' : RNG.t) (o : RNG.operation) (r : client.reply) :
  (forall g, o = RNG.MersenneTwisterAssign g -> mt19937_words g) ->
  client.perform rng o = Returns (r, rng') -> RNG.step rng o rng'.
Proof.
  intros Hg. destruct o as [seed| | |c|k|sd|g]; cbn [client.perform].
  - intros [= <- <-]. constructor.
  - intros [= <- <-]. constructor.
  - destruct (RNG.generateRandomSeed rng) as [seed rng1] eqn:Hr.
    intros [= <- <-]. replace rng1 with (snd (RNG.generateRandomSeed rng))
      by (rewrite Hr; reflexivity).
    constructor.
  - destruct (RNG.sample_call rng c) as [[v rng1]|w|] eqn:Hc; cbn; try discriminate.
    intros [= <- <-]. econstructor. exact Hc.
  - intros [= <- <-]. constructor.
  - intros [= <- <-]. constructor.
  - intros [= <- <-]. constructor. exact (Hg g eq_refl).
Qed.

(** What one call does to the seed, to the entropy source and to the engine
    size. *)
Lemma client_perform_frame (rng rng' : RNG.t) (o : RNG.operation) (r : client.reply) :
  client.perform rng o = Returns (r, rng') ->
  RNG.getSeed rng' = match o with RNG.SetSeed s => s | _ => RNG.getSeed rng end /\
  random_device.entropy (RNG.m_rd (RNG.m_impl rng'))
  = random_device.entropy (RNG.m_rd (RNG.m_impl rng)) /\
  random_device.drawn (RNG.m_rd (RNG.m_impl rng'))
  = (random_device.drawn (RNG.m_rd (RNG.m_impl rng))
     + if client.draws_entropy o then 1 else 0)%nat.
Proof.
  destruct o as [seed| | |c|k|sd|g]; cbn [client.perform client.draws_entropy].
  - intros [= <- <-]. cbn. auto with arith.
  - intros [= <- <-]. auto with arith.
  - unfold RNG.generateRandomSeed, random_device.call. intros [= <- <-]. cbn.
    repeat split. lia.
  - destruct (RNG.sample_call rng c) as [[v rng1]|w|] eqn:Hc; cbn; try discriminate.
    intros [= <- <-].
    destruct (RNG_sample_call_returns _ _ _ _ Hc) as [_ [k ->]]. cbn. auto with arith.
  - intros [= <- <-]. cbn. auto with arith.
  - intros [= <- <-]. cbn. auto with arith.
  - intros [= <- <-]. cbn. auto with arith.
Qed.

(** What one call replies with a sample, and what it does to the engine, is
    decided by the engine alone. *)
Lemma client_perform_same_engine (r1 r2 : RNG.t) (o : RNG.operation) :
  RNG.same_engine r1 r2 ->
  match client.perform r1 o, client.perform r2 o with
  | Returns (p1, r1'), Returns (p2, r2') =>
      client.sample_of p1 = client.sample_of p2 /\ RNG.same_engine r1' r2'
  | Throws w1, Throws w2 => w1 = w2
  | Undefined, Undefined => True
  | _, _ => False
  end.
Proof.
  intros He. destruct o as [seed| | |c|k|sd|g]; cbn [client.perform].
  - split; [reflexivity|]. unfold RNG.same_engine in *. cbn. rewrite He. reflexivity.
  - split; [reflexivity | exact He].
  - unfold RNG.generateRandomSeed, random_device.call. split; [reflexivity | exact He].
  - pose proof (RNG_sample_call_same_engine r1 r2 c He) as Hc.
    destruct (RNG.sample_call r1 c) as [[v1 a]|w1|],
             (RNG.sample_call r2 c) as [[v2 b]|w2|]; cbn; try contradiction; try exact Hc.
    destruct Hc as [-> Hab]. split; [reflexivity | exact Hab].
  - split; [reflexivity|]. unfold RNG.same_engine, RNG.mersenneTwister in *. cbn.
    rewrite He. reflexivity.
  - split; [reflexivity|]. unfold RNG.same_engine, RNG.mersenneTwister in *. cbn.
    rewrite He. reflexivity.
  - split; reflexivity.
Qed.

(** A query leaves the engine alone and replies with no sample. *)
Lemma client_perform_query (rng : RNG.t) (o : RNG.operation) :
  client.is_query o = true ->
  exists p rng',
    client.perform rng o = Returns (p, rng') /\
    client.sample_of p = None /\ RNG.same_engine rng' rng.
Proof.
  destruct o as [seed| | |c|k|sd|g]; cbn [client.is_query]; try discriminate; intros _.
  - eexists _, _. repeat split.
  - unfold client.perform, RNG.generateRandomSeed, random_device.call.
    eexists _, _. repeat split.
Qed.

Lemma client_erase_queries (ops : list RNG.operation) (r1 r2 : RNG.t) :
  RNG.same_engine r1 r2 ->
  client.samples (client.replies r1 ops)
  = client.samples
      (client.replies r2 (List.filter (fun o => negb (client.is_query o)) ops)) /\
  RNG.same_end (client.final r1 ops)
    (client.final r2 (List.filter (fun o => negb (client.is_query o)) ops)).
Proof.
  revert r1 r2; induction ops as [|o ops IH]; intros r1 r2 He.
  - split; [reflexivity | exact He].
  - cbn [List.filter]. destruct (client.is_query o) eqn:Hq; cbn [negb].
    + destruct (client_perform_query r1 o Hq) as (p & r1' & Hp & Hs & He').
      unfold client.replies, client.final. rewrite client_perform_all_cons, Hp.
      cbn [fst snd]. rewrite client_samples_cons, Hs.
      apply IH. unfold RNG.same_engine in *. congruence.
    + unfold client.replies, client.final. rewrite !client_perform_all_cons.
      pose proof (client_perform_same_engine r1 r2 o He) as Hc.
      destruct (client.perform r1 o) as [[p1 r1']|w1|],
               (client.perform r2 o) as [[p2 r2']|w2|]; try contradiction.
      * destruct Hc as [Hs He']. destruct (IH r1' r2' He') as [Hi Hf].
        cbn [fst snd]. rewrite !client_samples_cons, Hs.
        split; [|exact Hf]. rewrite Hi. reflexivity.
      * split; [reflexivity | exact Hc].
      * split; [reflexivity | exact I].
Qed.

(** X1. Default construction draws one value from the entropy source: it is
    the seed [getSeed()] reports, one 32-bit word, and the entropy source is
    left one value further.  That seed replays the instance: an instance
    built later by [RNG(seed)] from it, on any entropy source, answers every
    sequence of sampling calls with the same values. *)
Theorem RNG_default_seed_replays
    (rd rd' : random_device.t) (cs : list RNG.sampling) :
  RNG.getSeed (RNG.new rd) = fst (random_device.call rd) /\
  RNG.m_rd (RNG.m_impl (RNG.new rd)) = snd (random_device.call rd) /\
  0 <= RNG.getSeed (RNG.new rd) < 2 ^ 32 /\
  RNG.outputs (RNG.new rd) cs
  = RNG.outputs (RNG.new_seeded rd' (RNG.getSeed (RNG.new rd))) cs /\
  RNG.same_end (RNG.final (RNG.new rd) cs)
               (RNG.final (RNG.new_seeded rd' (RNG.getSeed (RNG.new rd))) cs).
Proof.
  split; [reflexivity|]. split; [reflexivity|]. split.
  - cbn. apply Z.mod_pos_bound. lia.
  - apply RNG_run_same_engine. reflexivity.
Qed.

(** X2. Default construction is seeded construction followed by
    [generateRandomSeed()] and [setSeed()] of its result: the two leave the
    same instance (seed, entropy source and engine). *)
Theorem RNG_default_is_reseed (rd : random_device.t) (seed : RNG.Seed) :
  RNG.new rd
  = RNG.setSeed (snd (RNG.generateRandomSeed (RNG.new_seeded rd seed)))
                (fst (RNG.generateRandomSeed (RNG.new_seeded rd seed))).
Proof.
  unfold RNG.new, RNG.Implementation_default, RNG.generateRandomSeed,
    RNG.setSeed, RNG.set_m_mt, RNG.set_m_seed, RNG.set_m_rd, RNG.new_seeded,
    RNG.Implementation_seeded, random_device.call.
  cbn [fst snd RNG.m_impl RNG.m_seed RNG.m_rd RNG.m_mt].
  set (v := random_device.entropy rd (random_device.drawn rd) mod 2 ^ 32).
  pose proof (mt19937_seed_new (mt19937.new seed) v (mt19937_new_ok seed)) as Hv.
  rewrite Hv. reflexivity.
Qed.

(** X3. Of two [setSeed] calls in a row only the second counts: the instance
    is the one the second call alone would have left. *)
Theorem RNG_setSeed_last_wins (rng : RNG.t) (s1 s2 : RNG.Seed) :
  RNG.ok rng ->
  RNG.setSeed (RNG.setSeed rng s1) s2 = RNG.setSeed rng s2.
Proof.
  intros Hok. unfold RNG.setSeed. cbn.
  rewrite (mt19937_seed_fresh (mt19937.seed (RNG.m_mt (RNG.m_impl rng)) s1)
             (RNG.m_mt (RNG.m_impl rng)) s2);
    [reflexivity | apply mt19937_seed_ok, Hok | exact Hok].
Qed.

(** X4. Over any history of calls that returns, the entropy source is the
    one the instance started with, advanced by one value for each
    [generateRandomSeed()] and by nothing else. *)
Theorem RNG_entropy_accounting
    (ops : list RNG.operation) (rng rng' : RNG.t) :
  client.final rng ops = Returns rng' ->
  random_device.entropy (RNG.m_rd (RNG.m_impl rng'))
  = random_device.entropy (RNG.m_rd (RNG.m_impl rng)) /\
  random_device.drawn (RNG.m_rd (RNG.m_impl rng'))
  = (random_device.drawn (RNG.m_rd (RNG.m_impl rng))
     + length (List.filter client.draws_entropy ops))%nat.
Proof.
  revert rng; induction ops as [|o ops IH]; intros rng.
  - intros [= ->]. cbn. auto with arith.
  - unfold client.final. rewrite client_perform_all_cons.
    destruct (client.perform rng o) as [[p r1]|w|] eqn:Hp; cbn [snd]; try discriminate.
    intros Hf. destruct (IH _ Hf) as [He Hd].
    destruct (client_perform_frame _ _ _ _ Hp) as (_ & He1 & Hd1).
    split; [congruence|]. rewrite Hd, Hd1. cbn [List.filter].
    destruct (client.draws_entropy o); cbn [length]; lia.
Qed.

(** X5. Over any history of calls that returns, [getSeed()] is the argument
    of the last [setSeed] in it, and the seed the instance started with when
    there is none. *)
Theorem RNG_getSeed_last_assigned
    (ops : list RNG.operation) (rng rng' : RNG.t) :
  client.final rng ops = Returns rng' ->
  RNG.getSeed rng' = client.last_seed (RNG.getSeed rng) ops.
Proof.
  revert rng; induction ops as [|o ops IH]; intros rng.
  - intros [= ->]. reflexivity.
  - unfold client.final. rewrite client_perform_all_cons.
    destruct (client.perform rng o) as [[p r1]|w|] eqn:Hp; cbn [snd]; try discriminate.
    intros Hf. rewrite (IH _ Hf).
    destruct (client_perform_frame _ _ _ _ Hp) as (Hs & _).
    unfold client.last_seed. cbn [fold_left]. rewrite Hs. reflexivity.
Qed.

(** X7. On a range of one value [getInt(m, m)] returns [m], given a standard
    library whose [uniform_int_distribution] obeys the standard. *)
Theorem RNG_getInt_single_value (L : UniformIntLaw D) (rng : RNG.t) (m : Z) :
  is_int m ->
  exists rng' : RNG.t, RNG.getInt rng m m = Returns (m, rng').
Proof.
  intros Hm.
  unfold RNG.getInt, uniform_int_distribution.new, uniform_int_distribution.call.
  rewrite Z.leb_refl. cbn.
  pose proof (uniform_int_in_range m m
                (mt19937.stream (RNG.m_mt (RNG.m_impl rng))) Hm Hm (Z.le_refl m)) as Hr.
  destruct (uniform_int_draw m m _) as [v k]; cbn in *.
  assert (v = m) as -> by lia. eexists. reflexivity.
Qed.

(** X8. Calls of [getSeed()] and [generateRandomSeed()] anywhere in a history
    do not perturb the random sequence: the sampled values are those of the
    history with these calls left out, and the two histories end alike. *)
Theorem RNG_queries_do_not_perturb (rng : RNG.t) (ops : list RNG.operation) :
  client.samples (client.replies rng ops)
  = client.samples
      (client.replies rng (List.filter (fun o => negb (client.is_query o)) ops)) /\
  RNG.same_end (client.final rng ops)
    (client.final rng (List.filter (fun o => negb (client.is_query o)) ops)).
Proof. apply client_erase_queries. reflexivity. Qed.

End ClientFacts.

(** ** Concrete histories *)

Lemma RNG_setSeed_last_wins_witness :
  RNG.ok (RNG.new_seeded reference.entropy_source 42) /\
  RNG.setSeed (RNG.setSeed (RNG.new_seeded reference.entropy_source 42) 1) 2
  = RNG.setSeed (RNG.new_seeded reference.entropy_source 42) 2.
Proof.
  assert (Hok : RNG.ok (RNG.new_seeded reference.entropy_source 42))
    by (vm_compute; reflexivity).
  split; [exact Hok|].
  exact (RNG_setSeed_last_wins (RNG.new_seeded reference.entropy_source 42) 1 2 Hok).
Defined.

Lemma RNG_entropy_accounting_witness :
  exists rng',
    @client.final reference.distributions (RNG.new_seeded reference.entropy_source 42)
      [RNG.GetSeed; RNG.GenerateRandomSeed; RNG.Sample (RNG.GetInt 1 6);
       RNG.SetSeed 7; RNG.GenerateRandomSeed]
    = Returns rng' /\
    random_device.entropy (RNG.m_rd (RNG.m_impl rng'))
    = random_device.entropy
        (RNG.m_rd (RNG.m_impl (RNG.new_seeded reference.entropy_source 42))) /\
    random_device.drawn (RNG.m_rd (RNG.m_impl rng'))
    = Nat.add
        (random_device.drawn
           (RNG.m_rd (RNG.m_impl (RNG.new_seeded reference.entropy_source 42))))
        (length (List.filter (@client.draws_entropy reference.distributions)
                   [RNG.GetSeed; RNG.GenerateRandomSeed; RNG.Sample (RNG.GetInt 1 6);
                    RNG.SetSeed 7; RNG.GenerateRandomSeed])).
Proof.
  assert (H : exists rng',
             @client.final reference.distributions
               (RNG.new_seeded reference.entropy_source 42)
               [RNG.GetSeed; RNG.GenerateRandomSeed; RNG.Sample (RNG.GetInt 1 6);
                RNG.SetSeed 7; RNG.GenerateRandomSeed]
             = Returns rng')
    by (eexists; vm_compute; reflexivity).
  destruct H as [rng' H]. exists rng'. split; [exact H|].
  exact (@RNG_entropy_accounting reference.distributions _ _ rng' H).
Defined.

Lemma RNG_getSeed_last_assigned_witness :
  exists rng',
    @client.final reference.distributions (RNG.new_seeded reference.entropy_source 42)
      [RNG.Sample (RNG.GetInt 1 6); RNG.SetSeed 7; RNG.GenerateRandomSeed;
       RNG.SetSeed 9; RNG.MersenneTwister 3]
    = Returns rng' /\
    RNG.getSeed rng'
    = @client.last_seed reference.distributions
        (RNG.getSeed (RNG.new_seeded reference.entropy_source 42))
        [RNG.Sample (RNG.GetInt 1 6); RNG.SetSeed 7; RNG.GenerateRandomSeed;
         RNG.SetSeed 9; RNG.MersenneTwister 3].
Proof.
  assert (H : exists rng',
             @client.final reference.distributions
               (RNG.new_seeded reference.entropy_source 42)
               [RNG.Sample (RNG.GetInt 1 6); RNG.SetSeed 7; RNG.GenerateRandomSeed;
                RNG.SetSeed 9; RNG.MersenneTwister 3]
             = Returns rng')
    by (eexists; vm_compute; reflexivity).
  destruct H as [rng' H]. exists rng'. split; [exact H|].
  exact (@RNG_getSeed_last_assigned reference.distributions _ _ rng' H).
Defined.

Lemma RNG_getInt_single_value_witness :
  is_int 3 /\
  exists rng' : RNG.t,
    @RNG.getInt reference.distributions
       (RNG.new_seeded reference.entropy_source 42) 3 3 = Returns (3, rng').
Proof.
  assert (H3 : is_int 3) by (unfold is_int; lia).
  split; [exact H3|].
  exact (@RNG_getInt_single_value reference.distributions reference_uniform_int_law
           (RNG.new_seeded reference.entropy_source 42) 3 H3).
Defined.

(** A history on the reference distributions: the replies, one by one. *)
Example client_history_replies :
  @client.replies reference.distributions (RNG.new_seeded reference.entropy_source 42)
    [RNG.GetSeed; RNG.GenerateRandomSeed; RNG.Sample (RNG.GetInt 1 6);
     RNG.SetSeed 42; RNG.Sample (RNG.GetInt 1 6); RNG.GetSeed;
     RNG.Sample (RNG.GetInt 6 1); RNG.GetSeed]
  = [client.SeedReply 42; client.SeedReply 2654435761;
     client.SampleReply (RNG.IntSample 1); client.NoReply;
     client.SampleReply (RNG.IntSample 1); client.SeedReply 42].
Proof. vm_compute. reflexivity. Qed.

(** ** The words of the engine *)

Lemma mt19937_word_land (w : Z) :
  mt19937_word w <-> Z.land w (Z.ones 32) = w.
Proof.
  unfold mt19937_word, mt19937.min, mt19937.max, mt19937.modulus, mt19937.word_size.
  rewrite Z.land_ones by lia. split.
  - intros Hw. apply Z.mod_small. lia.
  - intros Hw. pose proof (Z.mod_pos_bound w (2 ^ 32) ltac:(lia)). lia.
Qed.

Lemma mt19937_word_mod (x : Z) : mt19937_word (x mod mt19937.modulus).
Proof.
  unfold mt19937_word, mt19937.min, mt19937.max, mt19937.modulus, mt19937.word_size.
  pose proof (Z.mod_pos_bound x (2 ^ 32) ltac:(lia)). lia.
Qed.

Lemma Z_land_lxor_distr_l (a b c : Z) :
  Z.land (Z.lxor a b) c = Z.lxor (Z.land a c) (Z.land b c).
Proof.
  apply Z.bits_inj'. intros n Hn.
  rewrite !Z.land_spec, !Z.lxor_spec, !Z.land_spec.
  destruct (Z.testbit a n), (Z.testbit b n), (Z.testbit c n); reflexivity.
Qed.

Lemma mt19937_word_lxor (a b : Z) :
  mt19937_word a -> mt19937_word b -> mt19937_word (Z.lxor a b).
Proof.
  rewrite !mt19937_word_land. intros Ha Hb.
  rewrite Z_land_lxor_distr_l, Ha, Hb. reflexivity.
Qed.

Lemma mt19937_word_lor (a b : Z) :
  mt19937_word a -> mt19937_word b -> mt19937_word (Z.lor a b).
Proof.
  rewrite !mt19937_word_land. intros Ha Hb.
  rewrite Z.land_lor_distr_l, Ha, Hb. reflexivity.
Qed.

Lemma mt19937_word_land_r (a b : Z) : mt19937_word b -> mt19937_word (Z.land a b).
Proof.
  rewrite !mt19937_word_land. intros Hb.
  rewrite <- Z.land_assoc, Hb. reflexivity.
Qed.

Lemma mt19937_word_shiftr (a k : Z) :
  0 <= k -> mt19937_word a -> mt19937_word (Z.shiftr a k).
Proof.
  unfold mt19937_word, mt19937.min, mt19937.max, mt19937.modulus, mt19937.word_size.
  intros Hk Ha. rewrite Z.shiftr_div_pow2 by exact Hk.
  assert (Hp : 0 < 2 ^ k) by (apply Z.pow_pos_nonneg; lia).
  split.
  - apply Z.div_pos; lia.
  - assert (a / 2 ^ k <= a); [|lia].
    apply Z.div_le_upper_bound; [exact Hp|]. nia.
Qed.

Lemma mt19937_word_temper (z : Z) : mt19937_word z -> mt19937_word (mt19937.temper z).
Proof.
  intros Hz. unfold mt19937.temper.
  repeat first
    [ apply mt19937_word_lxor
    | exact Hz
    | assumption ];
  try (apply mt19937_word_land_r; apply mt19937_word_land; reflexivity).
  apply mt19937_word_shiftr; [unfold mt19937.tempering_l; lia|].
  repeat first [ apply mt19937_word_lxor | exact Hz ];
    try (apply mt19937_word_land_r; apply mt19937_word_land; reflexivity).
Qed.

Lemma mt19937_word_0 : mt19937_word 0.
Proof. apply mt19937_word_land. reflexivity. Qed.

Lemma mt19937_word_read (x : list Z) (i : nat) :
  Forall mt19937_word x -> mt19937_word (mt19937.word x i).
Proof.
  intros Hx. unfold mt19937.word. destruct (x !! i) as [w|] eqn:Hi; cbn.
  - exact (proj1 (Forall_lookup _ _) Hx i w Hi).
  - exact mt19937_word_0.
Qed.

Lemma mt19937_word_twist (x : list Z) (k k1 km : nat) :
  Forall mt19937_word x -> mt19937_word (mt19937.twist x k k1 km).
Proof.
  intros Hx. unfold mt19937.twist.
  apply mt19937_word_lxor; [apply mt19937_word_lxor|].
  - apply mt19937_word_read, Hx.
  - apply mt19937_word_shiftr; [lia|].
    apply mt19937_word_lor; apply mt19937_word_land_r, mt19937_word_land; reflexivity.
  - destruct (Z.odd _); apply mt19937_word_land; reflexivity.
Qed.

Lemma mt19937_gen_loop_words (km : nat -> nat) (count from : nat) (x : list Z) :
  Forall mt19937_word x -> Forall mt19937_word (mt19937.gen_loop km count from x).
Proof.
  revert from x; induction count as [|count IH]; intros from x Hx; cbn [mt19937.gen_loop].
  - exact Hx.
  - apply IH, Forall_insert; [exact Hx | apply mt19937_word_twist, Hx].
Qed.

Lemma mt19937_seed_loop_words (count from : nat) (x : list Z) :
  Forall mt19937_word x -> Forall mt19937_word (mt19937.seed_loop count from x).
Proof.
  revert from x; induction count as [|count IH]; intros from x Hx; cbn [mt19937.seed_loop].
  - exact Hx.
  - apply IH, Forall_insert; [exact Hx | apply mt19937_word_mod].
Qed.

Lemma mt19937_new_words (sd : Z) : mt19937_words (mt19937.new sd).
Proof.
  split; [apply mt19937_new_ok|].
  unfold mt19937.new. cbv beta delta [mt19937.seed mt19937.M_x] iota zeta.
  apply mt19937_seed_loop_words, Forall_insert; [|apply mt19937_word_mod].
  unfold mt19937.uninitialized. apply Forall_replicate, mt19937_word_0.
Qed.

Lemma mt19937_gen_rand_words (g : mt19937.t) :
  mt19937_words g -> mt19937_words (mt19937.gen_rand g).
Proof.
  intros [Hok Hw]. split; [apply mt19937_gen_rand_ok, Hok|].
  cbv beta delta [mt19937.gen_rand mt19937.M_x] iota zeta.
  apply Forall_insert.
  - apply mt19937_gen_loop_words, mt19937_gen_loop_words, Hw.
  - apply mt19937_word_twist, mt19937_gen_loop_words, mt19937_gen_loop_words, Hw.
Qed.

Lemma mt19937_call_words (g : mt19937.t) :
  mt19937_words g ->
  mt19937_word (fst (mt19937.call g)) /\ mt19937_words (snd (mt19937.call g)).
Proof.
  intros Hg. unfold mt19937.call.
  assert (Hg' : mt19937_words
                  (if (mt19937.state_size <=? mt19937.M_p g)%nat
                   then mt19937.gen_rand g else g)).
  { destruct (mt19937.state_size <=? mt19937.M_p g)%nat;
      [apply mt19937_gen_rand_words, Hg | exact Hg]. }
  destruct Hg' as [Hok Hw]. cbn [fst snd]. split.
  - apply mt19937_word_temper, mt19937_word_read, Hw.
  - split; [exact Hok | exact Hw].
Qed.

Lemma mt19937_discard_words (k : nat) (g : mt19937.t) :
  mt19937_words g -> mt19937_words (mt19937.discard k g).
Proof.
  revert g; induction k as [|k IH]; intros g Hg.
  - exact Hg.
  - apply (IH _ (proj2 (mt19937_call_words g Hg))).
Qed.

Lemma mt19937_stream_word (g : mt19937.t) (i : nat) :
  mt19937_words g -> mt19937_word (mt19937.stream g i).
Proof.
  intros Hg. unfold mt19937.stream.
  apply mt19937_call_words, mt19937_discard_words, Hg.
Qed.

Section EngineWords.
Context {D : StdDistributions}.

Lemma RNG_reachable_words (rng : RNG.t) :
  RNG.reachable rng -> mt19937_words (RNG.mersenneTwister rng).
Proof.
  induction 1 as [rd|rd seed|rng o rng' _ Hw Hstep].
  - apply mt19937_new_words.
  - apply mt19937_new_words.
  - destruct Hstep as [rng seed|rng|rng|rng c v rng' Hc|rng k|rng sd|rng g Hg].
    + unfold RNG.mersenneTwister, RNG.setSeed, RNG.set_m_mt, RNG.set_m_seed.
      cbn [RNG.m_impl RNG.m_mt].
      pose proof (mt19937_seed_new (RNG.m_mt (RNG.m_impl rng)) seed (proj1 Hw)) as Hs.
      rewrite Hs. apply mt19937_new_words.
    + exact Hw.
    + exact Hw.
    + destruct (RNG_sample_call_returns _ _ _ _ Hc) as [_ [k ->]].
      apply mt19937_discard_words, Hw.
    + apply mt19937_discard_words, Hw.
    + unfold RNG.mersenneTwister, RNG.set_m_mt in *. cbn [RNG.m_impl RNG.m_mt].
      pose proof (mt19937_seed_new (RNG.m_mt (RNG.m_impl rng)) sd (proj1 Hw)) as Hs.
      rewrite Hs. apply mt19937_new_words.
    + exact Hg.
Qed.

(** X9. In every state an instance reaches (clients that draw from, reseed
    or overwrite the engine through [mersenneTwister()] included), each word
    its engine is going to hand to a distribution or to such a client is a
    32-bit value, between the engine's [min()] and [max()]. *)
Theorem RNG_engine_words_in_range (rng : RNG.t) (i : nat) :
  RNG.reachable rng ->
  0 <= mt19937.stream (RNG.mersenneTwister rng) i < 2 ^ 32.
Proof.
  intros Hr.
  pose proof (mt19937_stream_word _ i (RNG_reachable_words rng Hr)) as Hw.
  unfold mt19937_word, mt19937.min, mt19937.max, mt19937.modulus, mt19937.word_size in Hw.
  lia.
Qed.

End EngineWords.

Lemma RNG_engine_words_in_range_witness :
  @RNG.reachable reference.distributions
     (RNG.setSeed (RNG.new reference.entropy_source) 42) /\
  0 <= mt19937.stream
         (RNG.mersenneTwister (RNG.setSeed (RNG.new reference.entropy_source) 42)) 0
    < 2 ^ 32.
Proof.
  assert (Hr : @RNG.reachable reference.distributions
                 (RNG.setSeed (RNG.new reference.entropy_source) 42)).
  { eapply RNG.reachable_step; [apply RNG.reachable_new | apply RNG.step_setSeed]. }
  split; [exact Hr|].
  exact (@RNG_engine_words_in_range reference.distributions _ 0%nat Hr).
Defined.

